(** * useResource: the resource-manager reducer and its promise wrappers

    A shallow embedding of [src/index.tsx]: the JavaScript objects the reducer
    builds with spreads and computed keys, the reducer itself, the read
    projection computed in [useResource], and the five promise-wrapping
    handlers.

    Modelling conventions.
    - A plain JavaScript object is the list of its own enumerable properties,
      in creation order.  A computed-key write [{...o, [k]: v}] overwrites an
      existing property in place and appends a new one.
    - A property read [o[k]] on a plain object falls back to [Object.prototype]
      when [o] has no own property [k]; such reads yield a built-in, which is
      truthy.
    - The TypeScript annotations fix the input types: [ResourceManager] is a
      record and a resource is an object whose [id] is a string.  The
      annotation of a rejection reason is not checked: a reason is
      [undefined], [null], or a value carrying a string [message]. *)

From Stdlib Require Import String Ascii List Bool NArith Lia.
From Stdlib Require Import Permutation Sorted.
Set Warnings "-register-all".
Import ListNotations.
Open Scope string_scope.

(** ** JavaScript values and plain objects *)

Module JS.

(** Property lists, shared by dictionaries and by entries. *)
Definition props (A : Type) : Type := list (string * A).

(** Field values of a resource.  The reducer never inspects them, apart from
  the [meta] objects it writes itself. *)
Inductive value : Type :=
| VUndefined
| VNull
| VBoolean (b : bool)
| VNumber (n : N)
| VString (s : string)
| VObject (fields : list (string * value)).

Definition object : Type := props value.

Section Props.
Context {A : Type}.

(** Own-property read. *)
Fixpoint own_get (k : string) (o : props A) : option A :=
  match o with
  | [] => None
  | (k', v) :: rest => if String.eqb k' k then Some v else own_get k rest
  end.

(** [{...o, [k]: v}]: overwrite in place, or append. *)
Fixpoint own_set (k : string) (v : A) (o : props A) : props A :=
  match o with
  | [] => [(k, v)]
  | (k', v') :: rest =>
      if String.eqb k' k then (k', v) :: rest
      else (k', v') :: own_set k v rest
  end.

(** [const {[k]: _, ...rest} = o]: every own property except [k]. *)
Definition own_rest (k : string) (o : props A) : props A :=
  filter (fun kv => negb (String.eqb (fst kv) k)) o.

(** The own keys in the order they were created.  This is not the order
    in which the object enumerates them: see [Object_keys] below. *)
Definition own_keys (o : props A) : list string := map fst o.
End Props.

(** The property names every plain object inherits from [Object.prototype]. *)
Definition Object_prototype_keys : list string :=
[ "constructor"; "hasOwnProperty"; "isPrototypeOf"; "propertyIsEnumerable";
  "toLocaleString"; "toString"; "valueOf"; "__proto__";
  "__defineGetter__"; "__defineSetter__"; "__lookupGetter__";
  "__lookupSetter__" ].

Definition inherited (k : string) : bool :=
existsb (String.eqb k) Object_prototype_keys.

(** The result of the property read [d[k]] on a dictionary of entries. *)
Inductive lookup : Type :=
| Own (e : object)
| Builtin (k : string)
| Undefined.

Definition get (d : props object) (k : string) : lookup :=
match own_get k d with
| Some e => Own e
| None => if inherited k then Builtin k else Undefined
end.

(** Truthiness of a read: objects and built-ins are truthy. *)
Definition truthy (r : lookup) : bool :=
match r with
| Own _ | Builtin _ => true
| Undefined => false
end.

(** [{...d[k]}]: the built-ins have no enumerable own property. *)
Definition spread (r : lookup) : object :=
match r with
| Own e => e
| Builtin _ | Undefined => []
end.

(** Truthiness of a string: the empty string is falsy. *)
Definition truthy_string (s : string) : bool :=
match s with
| EmptyString => false
| String _ _ => true
end.

(** *** Enumeration order of own keys

  Array indices (canonical decimal strings below 2^32 - 1) come first, in
  ascending numeric order; the other keys follow in creation order. *)

Definition digit_of (c : ascii) : option N :=
let n := N_of_ascii c in
if andb (N.leb 48 n) (N.leb n 57) then Some (n - 48)%N else None.

Fixpoint digits (s : string) (acc : N) : option N :=
match s with
| EmptyString => Some acc
| String c rest =>
    match digit_of c with
    | Some d => digits rest (acc * 10 + d)%N
    | None => None
    end
end.

Definition array_index (s : string) : option N :=
match s with
| EmptyString => None
| String "0" EmptyString => Some 0%N
| String "0" _ => None
| _ =>
    match digits s 0%N with
    | Some n => if N.ltb n 4294967295 then Some n else None
    | None => None
    end
end.

Section Order.
Context {A : Type}.

Fixpoint insert_index (i : N) (v : A) (l : list (N * A)) : list (N * A) :=
  match l with
  | [] => [(i, v)]
  | (j, w) :: rest =>
      if N.ltb i j then (i, v) :: l else (j, w) :: insert_index i v rest
  end.

Fixpoint indexed (o : props A) : list (N * A) :=
  match o with
  | [] => []
  | (k, v) :: rest =>
      match array_index k with
      | Some i => insert_index i v (indexed rest)
      | None => indexed rest
      end
  end.

Definition named (o : props A) : list A :=
  map snd
    (filter (fun kv => match array_index (fst kv) with
                       | Some _ => false
                       | None => true
                       end) o).

(** [Object.values(o)]. *)
Definition Object_values (o : props A) : list A :=
  map snd (indexed o) ++ named o.
End Order.

(** [Object.keys(o)]: the keys, in the order in which [Object.values(o)]
    lists their values. *)
Definition Object_keys {A : Type} (o : props A) : list string :=
  Object_values (map (fun kv => (fst kv, fst kv)) o).

End JS.

Import JS.

(** ** The vocabulary of [src/index.tsx] *)

(** [type AsyncAction = 'get' | 'list' | 'update' | 'remove' | 'create'] *)
Inductive AsyncAction : Type :=
| a_get
| a_list
| a_update
| a_remove
| a_create.

Definition AsyncAction_name (a : AsyncAction) : string :=
  match a with
  | a_get => "get"
  | a_list => "list"
  | a_update => "update"
  | a_remove => "remove"
  | a_create => "create"
  end.

(** [interface ActionError { id: string; message: string }] *)
Record ActionError : Type := mkActionError {
  id : string;
  message : string;
}.

(** A resource [T]: a plain object whose own [id] property is a string.
    [resource_id r] is the read [r.id], [fields r] the spread [...r]. *)
Record Resource : Type := mkResource {
  fields : object;
  resource_id : string;
  resource_id_ok : own_get "id" fields = Some (VString resource_id);
}.

(** [type Action<T>] *)
Inductive Action : Type :=
| GET_RESOURCE_STARTED (payload : string)
| GET_RESOURCE_RESOLVED (payload : Resource)
| GET_RESOURCE_REJECTED (payload : ActionError)
| LIST_RESOURCE_STARTED
| LIST_RESOURCE_RESOLVED (payload : list Resource)
| LIST_RESOURCE_REJECTED (payload : string)
| UPDATE_RESOURCE_STARTED (payload : string)
| UPDATE_RESOURCE_RESOLVED (payload : Resource)
| UPDATE_RESOURCE_REJECTED (payload : ActionError)
| CREATE_RESOURCE_STARTED
| CREATE_RESOURCE_RESOLVED (payload : Resource)
| CREATE_RESOURCE_REJECTED (payload : string)
| REMOVE_RESOURCE_STARTED (payload : string)
| REMOVE_RESOURCE_RESOLVED (payload : string)
| REMOVE_RESOURCE_REJECTED (payload : ActionError)
| SELECT_RESOURCE (payload : string).

(** [type Dictionary<T> = Record<string, T>], at the type of entries. *)
Definition Dictionary : Type := props object.

(** [interface ResourceManager]; the fields [list], [action], [error] and
    [selected] carry the prefix [rm_]. *)
Record ResourceManager : Type := mkResourceManager {
  rm_list : Dictionary;
  rm_action : option AsyncAction;
  rm_error : option string;
  rm_selected : option string;
}.

(** The object literal [{ action: a, error: e }] stored under [meta]. *)
Definition meta (a : option AsyncAction) (e : option string) : value :=
  VObject
    [ ("action", match a with
                 | Some x => VString (AsyncAction_name x)
                 | None => VNull
                 end);
      ("error", match e with
                | Some m => VString m
                | None => VNull
                end) ].

Definition EMPTY_RESOURCE_MANAGER : ResourceManager :=
  {| rm_list := []; rm_action := None; rm_error := None; rm_selected := None |}.

(** ** The reducer *)

(** The callback of the [reduce] in [LIST_RESOURCE_RESOLVED]. *)
Definition list_step (acc : Dictionary) (resource : Resource) : Dictionary :=
  if truthy (get acc (resource_id resource))
  then acc
  else own_set (resource_id resource)
         (own_set "meta" (meta None None) (fields resource))
         acc.

Definition resourceManagerReducer
  (state : ResourceManager) (action : Action) : ResourceManager :=
  match action with
  (* STARTED *)
  | GET_RESOURCE_STARTED payload =>
      {| rm_selected := rm_selected state;
         rm_error := None;
         rm_action := Some a_get;
         rm_list :=
           own_set payload
             (own_set "meta" (meta (Some a_get) None)
                (own_set "id" (VString payload)
                   (spread (get (rm_list state) payload))))
             (rm_list state) |}
  | UPDATE_RESOURCE_STARTED payload =>
      {| rm_selected := rm_selected state;
         rm_error := None;
         rm_action := Some a_update;
         rm_list :=
           own_set payload
             (own_set "meta" (meta (Some a_update) None)
                (spread (get (rm_list state) payload)))
             (rm_list state) |}
  | REMOVE_RESOURCE_STARTED payload =>
      {| rm_selected := rm_selected state;
         rm_error := None;
         rm_action := Some a_remove;
         rm_list :=
           own_set payload
             (own_set "meta" (meta (Some a_remove) None)
                (spread (get (rm_list state) payload)))
             (rm_list state) |}
  | CREATE_RESOURCE_STARTED =>
      {| rm_selected := rm_selected state;
         rm_error := None;
         rm_action := Some a_create;
         rm_list := rm_list state |}
  | LIST_RESOURCE_STARTED =>
      {| rm_selected := rm_selected state;
         rm_error := None;
         rm_action := Some a_list;
         rm_list := rm_list state |}
  (* RESOLVED *)
  | GET_RESOURCE_RESOLVED payload
  | UPDATE_RESOURCE_RESOLVED payload
  | CREATE_RESOURCE_RESOLVED payload =>
      {| rm_selected := rm_selected state;
         rm_error := None;
         rm_action := None;
         rm_list :=
           own_set (resource_id payload)
             (own_set "meta" (meta None None) (fields payload))
             (rm_list state) |}
  | LIST_RESOURCE_RESOLVED payload =>
      {| rm_selected := rm_selected state;
         rm_error := None;
         rm_action := None;
         rm_list := fold_left list_step payload [] |}
  | REMOVE_RESOURCE_RESOLVED payload =>
      let remainingResources := own_rest payload (rm_list state) in
      {| rm_selected :=
           match rm_selected state with
           | Some s => if String.eqb s payload then None else Some s
           | None => None
           end;
         rm_error := None;
         rm_action := None;
         rm_list := remainingResources |}
  (* REJECTED *)
  | GET_RESOURCE_REJECTED payload
  | UPDATE_RESOURCE_REJECTED payload
  | REMOVE_RESOURCE_REJECTED payload =>
      {| rm_selected := rm_selected state;
         rm_error := Some (message payload);
         rm_action := None;
         rm_list :=
           own_set (id payload)
             (own_set "meta" (meta None (Some (message payload)))
                (spread (get (rm_list state) (id payload))))
             (rm_list state) |}
  | CREATE_RESOURCE_REJECTED payload =>
      {| rm_selected := rm_selected state;
         rm_error := Some payload;
         rm_action := None;
         rm_list := rm_list state |}
  (* SYNC *)
  | SELECT_RESOURCE payload =>
      {| rm_selected := Some payload;
         rm_error := rm_error state;
         rm_action := rm_action state;
         rm_list := rm_list state |}
  (* default: no case for LIST_RESOURCE_REJECTED *)
  | LIST_RESOURCE_REJECTED _ => state
  end.

(** [useReducer]: the state after a sequence of dispatches. *)
Definition dispatch_all (state : ResourceManager) (actions : list Action)
  : ResourceManager :=
  fold_left resourceManagerReducer actions state.

(** ** The read projection *)

(** The value of [state.selected ? state.list[state.selected] : null]. *)
Inductive Selected : Type :=
| Null
| Read (r : lookup).

(** [interface State<T>]; the fields carry the prefix [st_]. *)
Record State : Type := mkState {
  st_list : list object;
  st_selected : Selected;
  st_action : option AsyncAction;
  st_error : option string;
}.

(** The [manager] memo of [useResource]. *)
Definition manager (state : ResourceManager) : State :=
  {| st_list := Object_values (rm_list state);
     st_selected :=
       match rm_selected state with
       | Some s =>
           if truthy_string s then Read (get (rm_list state) s) else Null
       | None => Null
       end;
     st_action := rm_action state;
     st_error := rm_error state |}.

(** ** Promises and the handlers *)

(** [Error], as far as the handlers read it. *)
Record Error : Type := mkError {
  Error_message : string;
}.

(** What a supplied promise can be rejected with.  The callbacks annotate
    the reason as [Error], but nothing checks the annotation: [undefined]
    and [null] are reasons as well.  A value that carries a string
    [message] is an [Error] here. *)
Inductive Reason : Type :=
| ReasonUndefined
| ReasonNull
| ReasonError (error : Error).

(** What a returned promise is rejected with: the bare string a callback
    throws, or the [TypeError] raised by reading a property of [undefined]
    or [null]. *)
Inductive Raised : Type :=
| BareMessage (text : string)
| TypeError.

(** A settled promise: fulfilled with a value or rejected with a reason. *)
Inductive settled (R A : Type) : Type :=
| Fulfilled (v : A)
| Rejected (reason : R).

Arguments Fulfilled {R A} v.
Arguments Rejected {R A} reason.

(** A reaction callback dispatches actions in order, then returns or throws.
    A chained promise is observed the same way: the actions its reactions
    dispatched once the supplied promise settled, and its own settlement. *)
Definition Reaction (R A : Type) : Type := list Action * settled R A.

Definition ret {R A : Type} (v : A) : Reaction R A := ([], Fulfilled v).

Definition throw {R A : Type} (reason : R) : Reaction R A :=
  ([], Rejected reason).

Definition dispatch {R : Type} (a : Action) : Reaction R unit :=
  ([a], Fulfilled tt).

Definition bind {R A B : Type} (m : Reaction R A) (k : A -> Reaction R B)
  : Reaction R B :=
  match snd m with
  | Fulfilled v => ((fst m ++ fst (k v))%list, snd (k v))
  | Rejected reason => (fst m, Rejected reason)
  end.

Notation "m ;; k" := (bind m (fun _ => k))
  (at level 61, right associativity).

Notation "x <- m ;; k" := (bind m (fun x => k))
  (at level 61, m at next level, right associativity).

(** The read [error.message]: it throws on [undefined] and on [null]. *)
Definition read_message (error : Reason) : Reaction Raised string :=
  match error with
  | ReasonError e => ret (Error_message e)
  | ReasonUndefined | ReasonNull => throw TypeError
  end.

(** The promise supplied by the caller, seen at its settlement. *)
Definition supplied {R A : Type} (p : settled R A) : Reaction R A := ([], p).

(** [p.then(onFulfilled)] *)
Definition promise_then {R A B : Type}
  (p : Reaction R A) (onFulfilled : A -> Reaction R B) : Reaction R B :=
  bind p onFulfilled.

(** [p.catch(onRejected)] *)
Definition promise_catch {R R' A : Type}
  (p : Reaction R A) (onRejected : R -> Reaction R' A) : Reaction R' A :=
  match snd p with
  | Fulfilled v => (fst p, Fulfilled v)
  | Rejected reason =>
      ((fst p ++ fst (onRejected reason))%list, snd (onRejected reason))
  end.

(** One call of a handler: what it dispatches before it returns, and the
    promise it returns as a function of how the supplied promise settles.
    In a rejection callback the argument of [dispatch] is evaluated before
    [dispatch] is called, so the read of [error.message] comes first. *)
Record Invocation (A B : Type) : Type := mkInvocation {
  synchronous : list Action;
  returned : settled Reason A -> Reaction Raised B;
}.

Arguments synchronous {A B} _.
Arguments returned {A B} _ _.

Definition handleGet (id : string) : Invocation Resource Resource :=
  {| synchronous := [GET_RESOURCE_STARTED id];
     returned := fun promise =>
       promise_catch
         (promise_then (supplied promise)
            (fun resource =>
               dispatch (GET_RESOURCE_RESOLVED resource) ;;
               ret resource))
         (fun error =>
            text <- read_message error ;;
            dispatch
              (GET_RESOURCE_REJECTED {| id := id; message := text |}) ;;
            thrown <- read_message error ;;
            throw (BareMessage thrown)) |}.

Definition handleList : Invocation (list Resource) (list Resource) :=
  {| synchronous := [LIST_RESOURCE_STARTED];
     returned := fun promise =>
       promise_catch
         (promise_then (supplied promise)
            (fun list =>
               dispatch (LIST_RESOURCE_RESOLVED list) ;;
               ret list))
         (fun error =>
            text <- read_message error ;;
            dispatch (LIST_RESOURCE_REJECTED text) ;;
            thrown <- read_message error ;;
            throw (BareMessage thrown)) |}.

Definition handleUpdate (id : string) : Invocation Resource Resource :=
  {| synchronous := [UPDATE_RESOURCE_STARTED id];
     returned := fun promise =>
       promise_catch
         (promise_then (supplied promise)
            (fun resource =>
               dispatch (UPDATE_RESOURCE_RESOLVED resource) ;;
               ret resource))
         (fun error =>
            text <- read_message error ;;
            dispatch
              (UPDATE_RESOURCE_REJECTED {| id := id; message := text |}) ;;
            thrown <- read_message error ;;
            throw (BareMessage thrown)) |}.

Definition handleCreate : Invocation Resource Resource :=
  {| synchronous := [CREATE_RESOURCE_STARTED];
     returned := fun promise =>
       promise_catch
         (promise_then (supplied promise)
            (fun resource =>
               dispatch (CREATE_RESOURCE_RESOLVED resource) ;;
               ret resource))
         (fun error =>
            text <- read_message error ;;
            dispatch (CREATE_RESOURCE_REJECTED text) ;;
            thrown <- read_message error ;;
            throw (BareMessage thrown)) |}.

Definition handleRemove (id : string) : Invocation Resource string :=
  {| synchronous := [REMOVE_RESOURCE_STARTED id];
     returned := fun promise =>
       promise_catch
         (promise_then (supplied promise)
            (fun _ =>
               dispatch (REMOVE_RESOURCE_RESOLVED id) ;;
               ret id))
         (fun error =>
            text <- read_message error ;;
            dispatch
              (REMOVE_RESOURCE_REJECTED {| id := id; message := text |}) ;;
            thrown <- read_message error ;;
            throw (BareMessage thrown)) |}.

Definition handleSelect (id : string) : list Action := [SELECT_RESOURCE id].

(** The actions of one call, in dispatch order, once the promise settled. *)
Definition trace {A B : Type} (call : Invocation A B) (p : settled Reason A)
  : list Action :=
  (synchronous call ++ fst (returned call p))%list.

(** The state once the call's returned promise has settled. *)
Definition settle {A B : Type}
  (state : ResourceManager) (call : Invocation A B) (p : settled Reason A)
  : ResourceManager :=
  dispatch_all state (trace call p).

(** ** Vocabulary of the statements *)

(** The lifecycle phase an action announces, and the verb it belongs to. *)
Inductive Phase : Type :=
| STARTED
| RESOLVED
| REJECTED.

Definition kind (a : Action) : option (AsyncAction * Phase) :=
  match a with
  | GET_RESOURCE_STARTED _ => Some (a_get, STARTED)
  | GET_RESOURCE_RESOLVED _ => Some (a_get, RESOLVED)
  | GET_RESOURCE_REJECTED _ => Some (a_get, REJECTED)
  | LIST_RESOURCE_STARTED => Some (a_list, STARTED)
  | LIST_RESOURCE_RESOLVED _ => Some (a_list, RESOLVED)
  | LIST_RESOURCE_REJECTED _ => Some (a_list, REJECTED)
  | UPDATE_RESOURCE_STARTED _ => Some (a_update, STARTED)
  | UPDATE_RESOURCE_RESOLVED _ => Some (a_update, RESOLVED)
  | UPDATE_RESOURCE_REJECTED _ => Some (a_update, REJECTED)
  | CREATE_RESOURCE_STARTED => Some (a_create, STARTED)
  | CREATE_RESOURCE_RESOLVED _ => Some (a_create, RESOLVED)
  | CREATE_RESOURCE_REJECTED _ => Some (a_create, REJECTED)
  | REMOVE_RESOURCE_STARTED _ => Some (a_remove, STARTED)
  | REMOVE_RESOURCE_RESOLVED _ => Some (a_remove, RESOLVED)
  | REMOVE_RESOURCE_REJECTED _ => Some (a_remove, REJECTED)
  | SELECT_RESOURCE _ => None
  end.

(** A rejection whose reason is [undefined] or [null]. *)
Definition nullish {A : Type} (p : settled Reason A) : bool :=
  match p with
  | Rejected ReasonUndefined | Rejected ReasonNull => true
  | _ => false
  end.

(** The ordering contract of one handler call for verb [v]: exactly one
    action, the STARTED one, is dispatched before the call returns; when the
    supplied promise fulfils, or rejects with an [Error], exactly one action
    is dispatched after that, and it is the RESOLVED or the REJECTED one of
    the same verb. *)
Definition ordering_contract {A B : Type}
  (v : AsyncAction) (call : Invocation A B) : Prop :=
  (exists a, synchronous call = [a] /\ kind a = Some (v, STARTED)) /\
  (forall p, nullish p = false ->
     exists b,
       fst (returned call p) = [b] /\
       (kind b = Some (v, RESOLVED) \/ kind b = Some (v, REJECTED))).

(** The first resource of a payload carrying the id [k]. *)
Definition first_with_id (k : string) (payload : list Resource)
  : option Resource :=
  find (fun resource => String.eqb (resource_id resource) k) payload.

(** [{...resource, meta: {action: null, error: null}}] *)
Definition with_null_meta (resource : Resource) : object :=
  own_set "meta" (meta None None) (fields resource).

(** The three rejections that carry an [ActionError]. *)
Definition scoped_rejection (payload : ActionError) (a : Action) : Prop :=
  a = GET_RESOURCE_REJECTED payload \/
  a = UPDATE_RESOURCE_REJECTED payload \/
  a = REMOVE_RESOURCE_REJECTED payload.

(** ** Concrete data of the scenarios *)

Definition resource_a1 : Resource :=
  mkResource [("id", VString "a"); ("v", VNumber 1)] "a" eq_refl.

Definition resource_a2 : Resource :=
  mkResource [("id", VString "a"); ("v", VNumber 2)] "a" eq_refl.

Definition resource_b3 : Resource :=
  mkResource [("id", VString "b"); ("v", VNumber 3)] "b" eq_refl.

Definition resource_constructor (n : N) : Resource :=
  mkResource [("id", VString "constructor"); ("v", VNumber n)]
    "constructor" eq_refl.

(** [entries = {a: {v: 1}}] *)
Definition state_a : ResourceManager :=
  {| rm_list := [("a", [("v", VNumber 1)])];
     rm_action := None;
     rm_error := None;
     rm_selected := None |}.

(** ** Vocabulary of the further properties *)

(** The id under which an action writes or deletes an entry. *)
Definition action_id (a : Action) : option string :=
  match a with
  | GET_RESOURCE_STARTED k
  | UPDATE_RESOURCE_STARTED k
  | REMOVE_RESOURCE_STARTED k
  | REMOVE_RESOURCE_RESOLVED k => Some k
  | GET_RESOURCE_RESOLVED resource
  | UPDATE_RESOURCE_RESOLVED resource
  | CREATE_RESOURCE_RESOLVED resource => Some (resource_id resource)
  | GET_RESOURCE_REJECTED payload
  | UPDATE_RESOURCE_REJECTED payload
  | REMOVE_RESOURCE_REJECTED payload => Some (id payload)
  | LIST_RESOURCE_STARTED
  | LIST_RESOURCE_RESOLVED _
  | LIST_RESOURCE_REJECTED _
  | CREATE_RESOURCE_STARTED
  | CREATE_RESOURCE_REJECTED _
  | SELECT_RESOURCE _ => None
  end.

(** The one action that rebuilds the whole dictionary. *)
Definition rebuilds_entries (a : Action) : bool :=
  match a with
  | LIST_RESOURCE_RESOLVED _ => true
  | _ => false
  end.

(** The one action that deletes an entry. *)
Definition deletes_entry (a : Action) : bool :=
  match a with
  | REMOVE_RESOURCE_RESOLVED _ => true
  | _ => false
  end.

(** Every entry that carries an [id] field carries its own key there. *)
Definition ids_match_keys (d : Dictionary) : Prop :=
  forall k entry v,
    own_get k d = Some entry ->
    own_get "id" entry = Some v ->
    v = VString k.

(** The elements of a list of keys in order of first occurrence, leaving
    out those already [seen]. *)
Fixpoint keep_first (seen : list string) (l : list string) : list string :=
  match l with
  | [] => []
  | k :: rest =>
      if existsb (String.eqb k) seen
      then keep_first seen rest
      else k :: keep_first (seen ++ [k]) rest
  end.

(** The ids of a payload that the reduce of LIST_RESOURCE_RESOLVED can
    insert. *)
Definition listable_ids (payload : list Resource) : list string :=
  filter (fun k => negb (inherited k)) (map resource_id payload).

(** A well-formed state of two entries, the second still loading. *)
Definition state_ab : ResourceManager :=
  {| rm_list :=
       [ ("a", [ ("id", VString "a"); ("v", VNumber 1);
                 ("meta", meta None None) ]);
         ("b", [ ("id", VString "b"); ("meta", meta (Some a_get) None) ]) ];
     rm_action := Some a_get;
     rm_error := None;
     rm_selected := Some "a" |}.

(** ** Own properties: reads after writes *)

Section OwnProperties.
Context {A : Type}.
Implicit Types (k : string) (v : A) (o : props A).

Lemma own_get_own_set_same k v o :
  own_get k (own_set k v o) = Some v.
Proof.
  induction o as [| [k' v'] rest IH]; simpl.
  - now rewrite String.eqb_refl.
  - destruct (String.eqb k' k) eqn:E; simpl; rewrite E; auto.
Qed.

Lemma own_get_own_set_other k k' v o :
  k' <> k -> own_get k' (own_set k v o) = own_get k' o.
Proof.
  intros Hne.
  induction o as [| [k0 v0] rest IH]; simpl.
  - destruct (String.eqb k k') eqn:E; auto.
    apply String.eqb_eq in E. congruence.
  - destruct (String.eqb k0 k) eqn:E; simpl.
    + apply String.eqb_eq in E. subst k0.
      destruct (String.eqb k k') eqn:E'; auto.
      apply String.eqb_eq in E'. congruence.
    + now rewrite IH.
Qed.

Lemma own_get_own_rest_same k o :
  own_get k (own_rest k o) = None.
Proof.
  unfold own_rest.
  induction o as [| [k' v'] rest IH]; simpl; auto.
  destruct (String.eqb k' k) eqn:E; simpl; auto.
  now rewrite E.
Qed.

Lemma own_get_own_rest_other k k' o :
  k' <> k -> own_get k' (own_rest k o) = own_get k' o.
Proof.
  intros Hne. unfold own_rest.
  induction o as [| [k0 v0] rest IH]; simpl; auto.
  destruct (String.eqb k0 k) eqn:E; simpl.
  - apply String.eqb_eq in E. subst k0.
    destruct (String.eqb k k') eqn:E'; auto.
    apply String.eqb_eq in E'. congruence.
  - now rewrite IH.
Qed.

Lemma own_get_none_keys k o :
  own_get k o = None <-> ~ In k (own_keys o).
Proof.
  unfold own_keys.
  induction o as [| [k' v'] rest IH]; simpl.
  - tauto.
  - destruct (String.eqb k' k) eqn:E.
    + apply String.eqb_eq in E. split; [discriminate | tauto].
    + apply String.eqb_neq in E. rewrite IH. tauto.
Qed.

Lemma own_keys_own_set_absent k v o :
  own_get k o = None -> own_keys (own_set k v o) = (own_keys o ++ [k])%list.
Proof.
  unfold own_keys.
  induction o as [| [k' v'] rest IH]; simpl; auto.
  destruct (String.eqb k' k) eqn:E; [discriminate |].
  intros H. simpl. now rewrite IH.
Qed.

End OwnProperties.

(** A write under the key [meta] reads back field by field. *)
Lemma own_get_meta_written (m : value) (e : object) (f : string) :
  own_get f (own_set "meta" m e) =
    if String.eqb f "meta" then Some m else own_get f e.
Proof.
  destruct (String.eqb f "meta") eqn:E.
  - apply String.eqb_eq in E. subst f. apply own_get_own_set_same.
  - apply String.eqb_neq in E. now apply own_get_own_set_other.
Qed.

(** ** The reduce of LIST_RESOURCE_RESOLVED *)

Lemma list_step_get (acc : Dictionary) (resource : Resource) (k : string) :
  own_get k (list_step acc resource) =
    match own_get k acc with
    | Some e => Some e
    | None =>
        if String.eqb (resource_id resource) k
        then if inherited k then None else Some (with_null_meta resource)
        else None
    end.
Proof.
  unfold list_step, get, with_null_meta.
  destruct (String.eqb (resource_id resource) k) eqn:E.
  - apply String.eqb_eq in E. rewrite E.
    destruct (own_get k acc) as [e |] eqn:G; simpl.
    + now rewrite G.
    + destruct (inherited k); simpl; auto.
      apply own_get_own_set_same.
  - apply String.eqb_neq in E.
    destruct (own_get (resource_id resource) acc) as [e |]; simpl.
    + destruct (own_get k acc); auto.
    + destruct (inherited (resource_id resource)); simpl.
      * destruct (own_get k acc); auto.
      * rewrite own_get_own_set_other by congruence.
        destruct (own_get k acc); auto.
Qed.

(** What the reduce leaves under a key: the accumulator's own entry if it
    has one; otherwise, unless the key is inherited, the first resource of
    the payload with that id. *)
Lemma fold_list_step_get (payload : list Resource) :
  forall (acc : Dictionary) (k : string),
    own_get k (fold_left list_step payload acc) =
      match own_get k acc with
      | Some e => Some e
      | None =>
          if inherited k then None
          else option_map with_null_meta (first_with_id k payload)
      end.
Proof.
  induction payload as [| resource rest IH]; intros acc k; simpl.
  - destruct (own_get k acc); auto. now destruct (inherited k).
  - rewrite IH, list_step_get.
    destruct (own_get k acc) as [e |]; auto.
    destruct (String.eqb (resource_id resource) k); auto.
    destruct (inherited k); auto.
Qed.

Lemma list_step_keys_NoDup (acc : Dictionary) (resource : Resource) :
  NoDup (own_keys acc) -> NoDup (own_keys (list_step acc resource)).
Proof.
  intros Hnd. unfold list_step, get.
  destruct (own_get (resource_id resource) acc) eqn:G; simpl; auto.
  destruct (inherited (resource_id resource)); simpl; auto.
  rewrite own_keys_own_set_absent by exact G.
  apply own_get_none_keys in G.
  apply NoDup_rev in Hnd.
  rewrite <- (rev_involutive (own_keys acc ++ [resource_id resource])).
  apply NoDup_rev. rewrite rev_app_distr. simpl.
  constructor; auto. now rewrite <- in_rev.
Qed.

Lemma fold_list_step_keys_NoDup (payload : list Resource) :
  forall acc : Dictionary,
    NoDup (own_keys acc) -> NoDup (own_keys (fold_left list_step payload acc)).
Proof.
  induction payload as [| resource rest IH]; intros acc Hnd; simpl; auto.
  apply IH. now apply list_step_keys_NoDup.
Qed.

(** ** LIST_RESOURCE_RESOLVED *)

(** C1, the scenario as the code runs it: from [entries = {a: {v: 1}}] the
    action LIST_RESOURCE_RESOLVED([{id: a, v: 2}, {id: b, v: 3}]) yields
    [{a: {id: a, v: 2, meta}, b: {id: b, v: 3, meta}}]; the entry under [a]
    is not the one the state held. *)
Lemma C1_existing_entry_is_overwritten :
  let state' :=
    resourceManagerReducer state_a
      (LIST_RESOURCE_RESOLVED [resource_a2; resource_b3]) in
  rm_list state' =
    [ ("a", [ ("id", VString "a"); ("v", VNumber 2);
              ("meta", meta None None) ]);
      ("b", [ ("id", VString "b"); ("v", VNumber 3);
              ("meta", meta None None) ]) ] /\
  own_get "a" (rm_list state_a) = Some [("v", VNumber 1)] /\
  own_get "a" (rm_list state') <> own_get "a" (rm_list state_a).
Proof.
  simpl. repeat split. discriminate.
Qed.

(** C1, amended: when the payload of LIST_RESOURCE_RESOLVED contains a
    resource whose id already has an entry in the state, and the id is not a
    name inherited from [Object.prototype], the resulting entry under that id
    is the first resource of the payload with that id together with
    [meta = {action: null, error: null}]; the existing entry is replaced. *)
Theorem C1_list_resolved_replaces_existing_entry
  (state : ResourceManager) (payload : list Resource)
  (k : string) (existing : object) (resource : Resource) :
  own_get k (rm_list state) = Some existing ->
  first_with_id k payload = Some resource ->
  inherited k = false ->
  own_get k
    (rm_list (resourceManagerReducer state (LIST_RESOURCE_RESOLVED payload))) =
    Some (with_null_meta resource).
Proof.
  intros _ Hfirst Hinh. simpl.
  rewrite fold_list_step_get. simpl.
  now rewrite Hinh, Hfirst.
Qed.

(** The amended C1 on the scenario of the specification. *)
Lemma C1_list_resolved_replaces_existing_entry_witness :
  own_get "a"
    (rm_list
       (resourceManagerReducer state_a
          (LIST_RESOURCE_RESOLVED [resource_a2; resource_b3]))) =
    Some (with_null_meta resource_a2).
Proof.
  apply (C1_list_resolved_replaces_existing_entry
           state_a [resource_a2; resource_b3] "a" [("v", VNumber 1)]
           resource_a2);
    reflexivity.
Defined.

(** C2, a state that loses an entry: from [entries = {a: {v: 1}}] the action
    LIST_RESOURCE_RESOLVED([{id: b, v: 3}]) leaves no entry under [a]. *)
Lemma C2_absent_entry_is_dropped :
  let state' :=
    resourceManagerReducer state_a (LIST_RESOURCE_RESOLVED [resource_b3]) in
  (forall resource, In resource [resource_b3] -> resource_id resource <> "a") /\
  own_get "a" (rm_list state_a) = Some [("v", VNumber 1)] /\
  own_get "a" (rm_list state') = None /\
  own_get "a" (rm_list state') <> own_get "a" (rm_list state_a).
Proof.
  simpl. repeat split; try discriminate.
  intros resource [<- | []]. discriminate.
Qed.

(** C2, amended: after LIST_RESOURCE_RESOLVED the entries are rebuilt from
    the payload alone; an id that does not appear in the payload has no entry
    in the result, whatever the state held under it. *)
Theorem C2_list_resolved_drops_absent_ids
  (state : ResourceManager) (payload : list Resource) (k : string) :
  (forall resource, In resource payload -> resource_id resource <> k) ->
  own_get k
    (rm_list (resourceManagerReducer state (LIST_RESOURCE_RESOLVED payload))) =
    None.
Proof.
  intros Habsent. simpl.
  rewrite fold_list_step_get. simpl.
  destruct (inherited k); auto.
  destruct (first_with_id k payload) as [resource |] eqn:F; auto.
  apply find_some in F. destruct F as [Hin Heq].
  apply String.eqb_eq in Heq. now apply Habsent in Hin.
Qed.

(** The amended C2 on [entries = {a: {v: 1}}] and a payload without [a]. *)
Lemma C2_list_resolved_drops_absent_ids_witness :
  own_get "a"
    (rm_list
       (resourceManagerReducer state_a (LIST_RESOURCE_RESOLVED [resource_b3]))) =
    None.
Proof.
  apply (C2_list_resolved_drops_absent_ids state_a [resource_b3] "a").
  intros resource [<- | []]. simpl. discriminate.
Defined.

(** The entries after LIST_RESOURCE_RESOLVED do not depend on the state. *)
Lemma list_resolved_ignores_state
  (state state' : ResourceManager) (payload : list Resource) :
  rm_list (resourceManagerReducer state (LIST_RESOURCE_RESOLVED payload)) =
  rm_list (resourceManagerReducer state' (LIST_RESOURCE_RESOLVED payload)).
Proof. reflexivity. Qed.

(** For an id that is not inherited, the first occurrence in the payload
    wins and the id is held once. *)
Lemma list_resolved_first_occurrence_wins
  (state : ResourceManager) (payload : list Resource)
  (k : string) (resource : Resource) :
  inherited k = false ->
  first_with_id k payload = Some resource ->
  let entries :=
    rm_list (resourceManagerReducer state (LIST_RESOURCE_RESOLVED payload)) in
  own_get k entries = Some (with_null_meta resource) /\
  NoDup (own_keys entries).
Proof.
  intros Hinh Hfirst. simpl. split.
  - rewrite fold_list_step_get. simpl. now rewrite Hinh, Hfirst.
  - apply fold_list_step_keys_NoDup. constructor.
Qed.

(** The duplicate-in-payload scenario of the specification. *)
Example list_resolved_duplicate_a :
  rm_list
    (resourceManagerReducer EMPTY_RESOURCE_MANAGER
       (LIST_RESOURCE_RESOLVED [resource_a1; resource_a2])) =
    [ ("a", [ ("id", VString "a"); ("v", VNumber 1);
              ("meta", meta None None) ]) ].
Proof. reflexivity. Qed.

(** C9 at the id ["constructor"]: on the empty state,
    LIST_RESOURCE_RESOLVED([{id: constructor, v: 1}, {id: constructor, v: 2}])
    leaves the entries empty.  The read [acc["constructor"]] finds the
    inherited built-in, which is truthy, so the reduce takes the branch meant
    for an id that is already present. *)
Theorem C9_inherited_id_is_never_listed :
  let payload := [resource_constructor 1; resource_constructor 2] in
  let state' :=
    resourceManagerReducer EMPTY_RESOURCE_MANAGER
      (LIST_RESOURCE_RESOLVED payload) in
  first_with_id "constructor" payload = Some (resource_constructor 1) /\
  get [] "constructor" = Builtin "constructor" /\
  rm_list state' = [] /\
  own_get "constructor" (rm_list state') = None.
Proof.
  simpl. repeat split.
Qed.

(** ** Rejections scoped to an id *)

(** The entry a scoped rejection leaves under its id. *)
Lemma scoped_rejection_entry
  (state : ResourceManager) (payload : ActionError) (a : Action) :
  scoped_rejection payload a ->
  resourceManagerReducer state a =
    {| rm_selected := rm_selected state;
       rm_error := Some (message payload);
       rm_action := None;
       rm_list :=
         own_set (id payload)
           (own_set "meta" (meta None (Some (message payload)))
              (spread (get (rm_list state) (id payload))))
           (rm_list state) |}.
Proof.
  intros [-> | [-> | ->]]; reflexivity.
Qed.

(** C3, on the empty state: GET_RESOURCE_REJECTED({id: 1, message: boom})
    finds no entry under [1] and leaves one behind. *)
Lemma C3_rejection_creates_an_entry :
  let state' :=
    resourceManagerReducer EMPTY_RESOURCE_MANAGER
      (GET_RESOURCE_REJECTED {| id := "1"; message := "boom" |}) in
  own_get "1" (rm_list EMPTY_RESOURCE_MANAGER) = None /\
  own_get "1" (rm_list state') =
    Some [("meta", meta None (Some "boom"))] /\
  own_get "1" (rm_list state') <> None.
Proof.
  simpl. repeat split. discriminate.
Qed.

(** C3, amended: after GET_, UPDATE_ or REMOVE_RESOURCE_REJECTED with payload
    [{id, message}] the global error is [message], the global action is
    null, and the entry under [id] has [meta = {action: null, error:
    message}]; if the state had no entry under [id], the result has one that
    consists of the [meta] field alone. *)
Theorem C3_scoped_rejection
  (state : ResourceManager) (payload : ActionError) (a : Action) :
  scoped_rejection payload a ->
  let state' := resourceManagerReducer state a in
  rm_error state' = Some (message payload) /\
  rm_action state' = None /\
  (exists entry,
      own_get (id payload) (rm_list state') = Some entry /\
      own_get "meta" entry = Some (meta None (Some (message payload)))) /\
  (own_get (id payload) (rm_list state) = None ->
   own_get (id payload) (rm_list state') =
     Some [("meta", meta None (Some (message payload)))]).
Proof.
  intros Ha. simpl.
  rewrite (scoped_rejection_entry state payload a Ha). simpl.
  repeat split.
  - eexists. split.
    + apply own_get_own_set_same.
    + apply own_get_own_set_same.
  - intros Habsent. rewrite own_get_own_set_same.
    unfold get. rewrite Habsent.
    now destruct (inherited (id payload)).
Qed.

(** The amended C3 on GET_RESOURCE_STARTED(1) followed by
    GET_RESOURCE_REJECTED({id: 1, message: boom}). *)
Lemma C3_scoped_rejection_witness :
  let payload := {| id := "1"; message := "boom" |} in
  let state' :=
    resourceManagerReducer
      (resourceManagerReducer EMPTY_RESOURCE_MANAGER
         (GET_RESOURCE_STARTED "1"))
      (GET_RESOURCE_REJECTED payload) in
  rm_error state' = Some "boom" /\
  rm_action state' = None /\
  (exists entry,
      own_get "1" (rm_list state') = Some entry /\
      own_get "meta" entry = Some (meta None (Some "boom"))) /\
  (own_get "1"
     (rm_list
        (resourceManagerReducer EMPTY_RESOURCE_MANAGER
           (GET_RESOURCE_STARTED "1"))) = None ->
   own_get "1" (rm_list state') = Some [("meta", meta None (Some "boom"))]).
Proof.
  apply (C3_scoped_rejection
           (resourceManagerReducer EMPTY_RESOURCE_MANAGER
              (GET_RESOURCE_STARTED "1"))
           {| id := "1"; message := "boom" |}
           (GET_RESOURCE_REJECTED {| id := "1"; message := "boom" |})).
  left. reflexivity.
Defined.

(** ** The read projection *)

(** A selection without an entry reads as [undefined], or as the built-in
    of that name; the empty id reads as [null]. *)
Lemma manager_dangling_selection (state : ResourceManager) (s : string) :
  rm_selected state = Some s ->
  own_get s (rm_list state) = None ->
  st_selected (manager state) =
    if truthy_string s
    then Read (if inherited s then Builtin s else Undefined)
    else Null.
Proof.
  intros Hsel Habsent. unfold manager, get. simpl.
  now rewrite Hsel, Habsent.
Qed.

(** C4 at [select("9")] on a fresh container: the state selects [9], holds
    no entry under it, and the projection's [selected] is the result of the
    read [state.list["9"]], which is [undefined] and not [null]. *)
Theorem C4_dangling_selection_reads_undefined :
  let state := dispatch_all EMPTY_RESOURCE_MANAGER (handleSelect "9") in
  rm_selected state = Some "9" /\
  own_get "9" (rm_list state) = None /\
  st_selected (manager state) = Read Undefined /\
  st_selected (manager state) <> Null.
Proof.
  simpl. repeat split. discriminate.
Qed.

(** ** REMOVE_RESOURCE_RESOLVED *)

(** C5 with nothing selected: REMOVE_RESOURCE_RESOLVED(x) on the empty state
    ends with [selected = null] although the previous selection was not
    [x]. *)
Lemma C5_selected_null_without_match :
  let state' :=
    resourceManagerReducer EMPTY_RESOURCE_MANAGER
      (REMOVE_RESOURCE_RESOLVED "x") in
  ~ (rm_selected state' = None <->
     rm_selected EMPTY_RESOURCE_MANAGER = Some "x").
Proof.
  simpl. intros [H _]. specialize (H eq_refl). discriminate.
Qed.

(** C5, amended: after REMOVE_RESOURCE_RESOLVED(id) the entries have no key
    [id]; [selected] is null if and only if it was null before or equaled
    [id]; a selection different from [id] is left unchanged. *)
Theorem C5_remove_resolved (state : ResourceManager) (k : string) :
  let state' := resourceManagerReducer state (REMOVE_RESOURCE_RESOLVED k) in
  own_get k (rm_list state') = None /\
  ~ In k (own_keys (rm_list state')) /\
  (rm_selected state' = None <->
   rm_selected state = None \/ rm_selected state = Some k) /\
  (rm_selected state <> Some k -> rm_selected state' = rm_selected state).
Proof.
  simpl. repeat split.
  - apply own_get_own_rest_same.
  - apply own_get_none_keys, own_get_own_rest_same.
  - destruct (rm_selected state) as [s |]; auto.
    destruct (String.eqb s k) eqn:E; [| discriminate].
    apply String.eqb_eq in E. subst s. auto.
  - intros [H | H]; rewrite H; auto.
    now rewrite String.eqb_refl.
  - intros Hne. destruct (rm_selected state) as [s |]; auto.
    destruct (String.eqb s k) eqn:E; auto.
    apply String.eqb_eq in E. congruence.
Qed.

(** The other entries survive REMOVE_RESOURCE_RESOLVED. *)
Lemma remove_resolved_keeps_others
  (state : ResourceManager) (k k' : string) :
  k' <> k ->
  own_get k'
    (rm_list (resourceManagerReducer state (REMOVE_RESOURCE_RESOLVED k))) =
    own_get k' (rm_list state).
Proof.
  intros Hne. simpl. now apply own_get_own_rest_other.
Qed.

(** ** Resolutions that carry one resource *)

(** C6: after GET_, UPDATE_ or CREATE_RESOURCE_RESOLVED with payload
    [resource] the global action and error are null and the entry under
    [resource.id] is the payload with [meta = {action: null, error: null}]:
    field by field it reads as the payload, except [meta]; nothing of the
    previous entry is kept. *)
Theorem C6_single_resolution_replaces_entry
  (state : ResourceManager) (resource : Resource) :
  let replaced a :=
    let state' := resourceManagerReducer state a in
    rm_action state' = None /\
    rm_error state' = None /\
    own_get (resource_id resource) (rm_list state') =
      Some (with_null_meta resource) /\
    own_get "meta" (with_null_meta resource) = Some (meta None None) /\
    (forall f, f <> "meta" ->
       own_get f (with_null_meta resource) = own_get f (fields resource)) in
  replaced (GET_RESOURCE_RESOLVED resource) /\
  replaced (UPDATE_RESOURCE_RESOLVED resource) /\
  replaced (CREATE_RESOURCE_RESOLVED resource).
Proof.
  assert (Hfields : forall f, f <> "meta" ->
            own_get f (with_null_meta resource) = own_get f (fields resource)).
  { intros f Hf. unfold with_null_meta.
    now apply own_get_own_set_other. }
  simpl. unfold with_null_meta in *.
  repeat split; auto using own_get_own_set_same.
Qed.

(** ** STARTED on an absent id *)

(** C10: when the state has no entry under [id], UPDATE_RESOURCE_STARTED(id)
    and REMOVE_RESOURCE_STARTED(id) create an entry that consists of the
    [meta] field alone, while GET_RESOURCE_STARTED(id) creates one that also
    carries [id]. *)
Theorem C10_started_on_absent_id (state : ResourceManager) (k : string) :
  own_get k (rm_list state) = None ->
  own_get k
    (rm_list (resourceManagerReducer state (UPDATE_RESOURCE_STARTED k))) =
    Some [("meta", meta (Some a_update) None)] /\
  own_get k
    (rm_list (resourceManagerReducer state (REMOVE_RESOURCE_STARTED k))) =
    Some [("meta", meta (Some a_remove) None)] /\
  own_get k
    (rm_list (resourceManagerReducer state (GET_RESOURCE_STARTED k))) =
    Some [("id", VString k); ("meta", meta (Some a_get) None)].
Proof.
  intros Habsent. simpl.
  rewrite !own_get_own_set_same. unfold get. rewrite Habsent.
  destruct (inherited k); simpl; auto.
Qed.

(** C10 on the empty state and the id [1]. *)
Lemma C10_started_on_absent_id_witness :
  own_get "1"
    (rm_list
       (resourceManagerReducer EMPTY_RESOURCE_MANAGER
          (UPDATE_RESOURCE_STARTED "1"))) =
    Some [("meta", meta (Some a_update) None)] /\
  own_get "1"
    (rm_list
       (resourceManagerReducer EMPTY_RESOURCE_MANAGER
          (REMOVE_RESOURCE_STARTED "1"))) =
    Some [("meta", meta (Some a_remove) None)] /\
  own_get "1"
    (rm_list
       (resourceManagerReducer EMPTY_RESOURCE_MANAGER
          (GET_RESOURCE_STARTED "1"))) =
    Some [("id", VString "1"); ("meta", meta (Some a_get) None)].
Proof.
  apply (C10_started_on_absent_id EMPTY_RESOURCE_MANAGER "1").
  reflexivity.
Defined.

(** ** The handlers *)

(** What a handler dispatches once the supplied promise has settled, and how
    the promise it returns settles. *)
Lemma handleGet_returned (k : string) (p : settled Reason Resource) :
  returned (handleGet k) p =
    match p with
    | Fulfilled resource =>
        ([GET_RESOURCE_RESOLVED resource], Fulfilled resource)
    | Rejected (ReasonError error) =>
        ([GET_RESOURCE_REJECTED
            {| id := k; message := Error_message error |}],
         Rejected (BareMessage (Error_message error)))
    | Rejected _ => ([], Rejected TypeError)
    end.
Proof. destruct p as [v | []]; reflexivity. Qed.

Lemma handleList_returned (p : settled Reason (list Resource)) :
  returned handleList p =
    match p with
    | Fulfilled resources =>
        ([LIST_RESOURCE_RESOLVED resources], Fulfilled resources)
    | Rejected (ReasonError error) =>
        ([LIST_RESOURCE_REJECTED (Error_message error)],
         Rejected (BareMessage (Error_message error)))
    | Rejected _ => ([], Rejected TypeError)
    end.
Proof. destruct p as [v | []]; reflexivity. Qed.

Lemma handleUpdate_returned (k : string) (p : settled Reason Resource) :
  returned (handleUpdate k) p =
    match p with
    | Fulfilled resource =>
        ([UPDATE_RESOURCE_RESOLVED resource], Fulfilled resource)
    | Rejected (ReasonError error) =>
        ([UPDATE_RESOURCE_REJECTED
            {| id := k; message := Error_message error |}],
         Rejected (BareMessage (Error_message error)))
    | Rejected _ => ([], Rejected TypeError)
    end.
Proof. destruct p as [v | []]; reflexivity. Qed.

Lemma handleCreate_returned (p : settled Reason Resource) :
  returned handleCreate p =
    match p with
    | Fulfilled resource =>
        ([CREATE_RESOURCE_RESOLVED resource], Fulfilled resource)
    | Rejected (ReasonError error) =>
        ([CREATE_RESOURCE_REJECTED (Error_message error)],
         Rejected (BareMessage (Error_message error)))
    | Rejected _ => ([], Rejected TypeError)
    end.
Proof. destruct p as [v | []]; reflexivity. Qed.

Lemma handleRemove_returned (k : string) (p : settled Reason Resource) :
  returned (handleRemove k) p =
    match p with
    | Fulfilled _ => ([REMOVE_RESOURCE_RESOLVED k], Fulfilled k)
    | Rejected (ReasonError error) =>
        ([REMOVE_RESOURCE_REJECTED
            {| id := k; message := Error_message error |}],
         Rejected (BareMessage (Error_message error)))
    | Rejected _ => ([], Rejected TypeError)
    end.
Proof. destruct p as [v | []]; reflexivity. Qed.

(** Each of the five handlers dispatches its STARTED action, and nothing
    else, before it returns; when the supplied promise fulfils, or rejects
    with an [Error], the handler then dispatches exactly one further action,
    the RESOLVED or the REJECTED one of the same verb. *)
Lemma handlers_keep_ordering_contract (k : string) :
  ordering_contract a_get (handleGet k) /\
  ordering_contract a_list handleList /\
  ordering_contract a_update (handleUpdate k) /\
  ordering_contract a_create handleCreate /\
  ordering_contract a_remove (handleRemove k).
Proof.
  unfold ordering_contract.
  repeat split;
    try (eexists; split; reflexivity);
    intros [v | [| | error]] Hp; try discriminate Hp;
    eexists; (split; [reflexivity |]); simpl; auto.
Qed.

(** Under the contract the trace of a call is the STARTED action followed
    by one settlement action: the settlement never comes first. *)
Lemma trace_starts_with_started
  {A B : Type} (v : AsyncAction) (call : Invocation A B)
  (p : settled Reason A) :
  ordering_contract v call ->
  nullish p = false ->
  exists a b,
    trace call p = [a; b] /\
    kind a = Some (v, STARTED) /\
    (kind b = Some (v, RESOLVED) \/ kind b = Some (v, REJECTED)).
Proof.
  intros [[a [Ha Ka]] Hsettle] Hp.
  destruct (Hsettle p Hp) as [b [Hb Kb]].
  exists a, b. unfold trace. rewrite Ha, Hb. auto.
Qed.

(** A promise rejected with [undefined] or [null] makes every handler throw
    in its rejection callback before [dispatch] is called: no action follows
    the STARTED one, and the returned promise rejects with the
    [TypeError]. *)
Lemma nullish_rejection_dispatches_nothing (k : string) :
  let silent {A B : Type} (call : Invocation A B) :=
    forall p : settled Reason A,
      nullish p = true ->
      returned call p = ([], Rejected TypeError) /\
      trace call p = synchronous call in
  silent (handleGet k) /\
  silent handleList /\
  silent (handleUpdate k) /\
  silent handleCreate /\
  silent (handleRemove k).
Proof.
  simpl. repeat split;
    destruct p as [v | [| | error]]; try discriminate; reflexivity.
Qed.

(** C8 at [get("1", promise)] on a fresh container, with a promise rejected
    with [undefined]: GET_RESOURCE_STARTED is dispatched before the call
    returns, but no GET_RESOURCE_REJECTED follows the settlement.  The
    callback reads [error.message] to build the argument of [dispatch], the
    read throws, and the state stays as GET_RESOURCE_STARTED left it. *)
Theorem C8_nullish_rejection_dispatches_no_settlement :
  let p : settled Reason Resource := Rejected ReasonUndefined in
  let state' := settle EMPTY_RESOURCE_MANAGER (handleGet "1") p in
  synchronous (handleGet "1") = [GET_RESOURCE_STARTED "1"] /\
  fst (returned (handleGet "1") p) = [] /\
  snd (returned (handleGet "1") p) = Rejected TypeError /\
  trace (handleGet "1") p = [GET_RESOURCE_STARTED "1"] /\
  rm_action state' = Some a_get /\
  rm_error state' = None /\
  own_get "1" (rm_list state') =
    Some [("id", VString "1"); ("meta", meta (Some a_get) None)].
Proof. repeat split. Qed.

(** A rejected [update] is re-raised as the bare message and recorded under
    the id and globally, whatever was dispatched between the start and the
    settlement; [get] and [remove] behave alike. *)
Lemma handleUpdate_records_rejection
  (state : ResourceManager) (k : string) (error : Error) :
  let p : settled Reason Resource := Rejected (ReasonError error) in
  let state' := dispatch_all state (fst (returned (handleUpdate k) p)) in
  snd (returned (handleUpdate k) p) =
    Rejected (BareMessage (Error_message error)) /\
  rm_error state' = Some (Error_message error) /\
  exists entry,
    own_get k (rm_list state') = Some entry /\
    own_get "meta" entry = Some (meta None (Some (Error_message error))).
Proof.
  simpl. repeat split. eexists. split; apply own_get_own_set_same.
Qed.

Lemma handleGet_records_rejection
  (state : ResourceManager) (k : string) (error : Error) :
  let p : settled Reason Resource := Rejected (ReasonError error) in
  let state' := dispatch_all state (fst (returned (handleGet k) p)) in
  snd (returned (handleGet k) p) =
    Rejected (BareMessage (Error_message error)) /\
  rm_error state' = Some (Error_message error) /\
  exists entry,
    own_get k (rm_list state') = Some entry /\
    own_get "meta" entry = Some (meta None (Some (Error_message error))).
Proof.
  simpl. repeat split. eexists. split; apply own_get_own_set_same.
Qed.

Lemma handleRemove_records_rejection
  (state : ResourceManager) (k : string) (error : Error) :
  let p : settled Reason Resource := Rejected (ReasonError error) in
  let state' := dispatch_all state (fst (returned (handleRemove k) p)) in
  snd (returned (handleRemove k) p) =
    Rejected (BareMessage (Error_message error)) /\
  rm_error state' = Some (Error_message error) /\
  exists entry,
    own_get k (rm_list state') = Some entry /\
    own_get "meta" entry = Some (meta None (Some (Error_message error))).
Proof.
  simpl. repeat split. eexists. split; apply own_get_own_set_same.
Qed.

(** The scenario of the specification: [update("5", future)] with a future
    that rejects with message [conflict]. *)
Example update_conflict_is_recorded :
  let p : settled Reason Resource :=
    Rejected (ReasonError (mkError "conflict")) in
  let state' := settle EMPTY_RESOURCE_MANAGER (handleUpdate "5") p in
  snd (returned (handleUpdate "5") p) = Rejected (BareMessage "conflict") /\
  rm_error state' = Some "conflict" /\
  own_get "5" (rm_list state') = Some [("meta", meta None (Some "conflict"))].
Proof. repeat split. Qed.

(** A rejected [create] is re-raised and recorded globally. *)
Lemma handleCreate_records_rejection
  (state : ResourceManager) (error : Error) :
  let p : settled Reason Resource := Rejected (ReasonError error) in
  snd (returned handleCreate p) =
    Rejected (BareMessage (Error_message error)) /\
  rm_error (dispatch_all state (fst (returned handleCreate p))) =
    Some (Error_message error) /\
  rm_action (dispatch_all state (fst (returned handleCreate p))) = None.
Proof. repeat split. Qed.

(** A rejected [list] dispatches LIST_RESOURCE_REJECTED, for which the
    reducer has no case: the state stays as LIST_RESOURCE_STARTED left it. *)
Lemma handleList_rejection_leaves_state
  (state : ResourceManager) (reason : Reason) :
  settle state handleList (Rejected reason) =
    resourceManagerReducer state LIST_RESOURCE_STARTED.
Proof. destruct reason; reflexivity. Qed.

(** C7 at [list(future)] with a future that rejects with message
    [conflict], on a fresh container: the returned promise rejects with the
    bare string, but the state records nothing; the global error is still
    null and the global action still reads [list]. *)
Theorem C7_list_rejection_is_not_recorded :
  let p : settled Reason (list Resource) :=
    Rejected (ReasonError (mkError "conflict")) in
  let state' := settle EMPTY_RESOURCE_MANAGER handleList p in
  snd (returned handleList p) = Rejected (BareMessage "conflict") /\
  trace handleList p =
    [LIST_RESOURCE_STARTED; LIST_RESOURCE_REJECTED "conflict"] /\
  rm_error state' = None /\
  rm_action state' = Some a_list /\
  rm_list state' = [].
Proof. repeat split. Qed.

(** ** Further facts about own properties *)

Section OwnPropertiesMore.
Context {A : Type}.
Implicit Types (k : string) (v : A) (o : props A).

Lemma own_get_own_set k k' v o :
  own_get k' (own_set k v o) =
    if String.eqb k k' then Some v else own_get k' o.
Proof.
  destruct (String.eqb k k') eqn:E.
  - apply String.eqb_eq in E. subst k'. apply own_get_own_set_same.
  - apply String.eqb_neq in E. apply own_get_own_set_other. congruence.
Qed.

Lemma own_get_own_rest k k' o :
  own_get k' (own_rest k o) =
    if String.eqb k k' then None else own_get k' o.
Proof.
  destruct (String.eqb k k') eqn:E.
  - apply String.eqb_eq in E. subst k'. apply own_get_own_rest_same.
  - apply String.eqb_neq in E. apply own_get_own_rest_other. congruence.
Qed.

Lemma own_set_own_set_same k v v' o :
  own_set k v (own_set k v' o) = own_set k v o.
Proof.
  induction o as [| [k0 v0] rest IH]; simpl.
  - now rewrite String.eqb_refl.
  - destruct (String.eqb k0 k) eqn:E; simpl; rewrite E; auto.
    now rewrite IH.
Qed.

Lemma own_set_present_same k v o :
  own_get k o = Some v -> own_set k v o = o.
Proof.
  induction o as [| [k0 v0] rest IH]; simpl; [discriminate |].
  destruct (String.eqb k0 k) eqn:E.
  - intros [= ->]. reflexivity.
  - intros H. now rewrite IH.
Qed.

Lemma own_keys_own_set_present k v v' o :
  own_get k o = Some v' -> own_keys (own_set k v o) = own_keys o.
Proof.
  unfold own_keys.
  induction o as [| [k0 v0] rest IH]; simpl; [discriminate |].
  destruct (String.eqb k0 k) eqn:E; simpl; auto.
  intros H. now rewrite IH.
Qed.

Lemma own_keys_own_rest k o :
  own_keys (own_rest k o) =
    filter (fun k' => negb (String.eqb k' k)) (own_keys o).
Proof.
  unfold own_keys, own_rest.
  induction o as [| [k0 v0] rest IH]; simpl; auto.
  destruct (String.eqb k0 k); simpl; now rewrite IH.
Qed.

Lemma own_set_absent k v o :
  own_get k o = None -> own_set k v o = (o ++ [(k, v)])%list.
Proof.
  induction o as [| [k0 v0] rest IH]; simpl; auto.
  destruct (String.eqb k0 k); [discriminate |].
  intros H. now rewrite IH.
Qed.

Lemma own_rest_absent k o :
  own_get k o = None -> own_rest k o = o.
Proof.
  unfold own_rest.
  induction o as [| [k0 v0] rest IH]; simpl; auto.
  destruct (String.eqb k0 k) eqn:E; [discriminate |].
  intros H. simpl. now rewrite IH.
Qed.

Lemma own_rest_own_set k v o :
  own_rest k (own_set k v o) = own_rest k o.
Proof.
  unfold own_rest.
  induction o as [| [k0 v0] rest IH]; simpl.
  - now rewrite String.eqb_refl.
  - destruct (String.eqb k0 k) eqn:E; simpl; rewrite E; simpl; auto.
    now rewrite IH.
Qed.

Lemma own_rest_own_rest k o :
  own_rest k (own_rest k o) = own_rest k o.
Proof.
  apply own_rest_absent, own_get_own_rest_same.
Qed.

Lemma own_get_some_existsb k o :
  existsb (String.eqb k) (own_keys o) =
    match own_get k o with Some _ => true | None => false end.
Proof.
  unfold own_keys.
  induction o as [| [k0 v0] rest IH]; simpl; auto.
  rewrite String.eqb_sym.
  destruct (String.eqb k0 k); simpl; auto.
Qed.

Lemma NoDup_snoc (l : list string) k :
  NoDup l -> ~ In k l -> NoDup (l ++ [k]).
Proof.
  intros Hnd Hnin.
  induction Hnd as [| x l Hx Hnd IH]; simpl.
  - constructor; [tauto | constructor].
  - constructor.
    + rewrite in_app_iff. simpl. intros [H | [H | []]]; [tauto |].
      subst. apply Hnin. now left.
    + apply IH. intros H. apply Hnin. now right.
Qed.

Lemma own_set_keys_NoDup k v o :
  NoDup (own_keys o) -> NoDup (own_keys (own_set k v o)).
Proof.
  intros Hnd. destruct (own_get k o) as [v' |] eqn:G.
  - now rewrite (own_keys_own_set_present k v v' o G).
  - rewrite own_keys_own_set_absent by exact G.
    apply NoDup_snoc; auto. now apply own_get_none_keys.
Qed.

Lemma own_rest_keys_NoDup k o :
  NoDup (own_keys o) -> NoDup (own_keys (own_rest k o)).
Proof.
  intros Hnd. rewrite own_keys_own_rest. now apply NoDup_filter.
Qed.

End OwnPropertiesMore.

(** The entry written by a STARTED or REJECTED action absorbs a second
    write of the same fields. *)
Lemma meta_write_absorbs (m : value) (e : object) :
  own_set "meta" m (own_set "meta" m e) = own_set "meta" m e.
Proof. apply own_set_own_set_same. Qed.

Lemma id_meta_write_absorbs (k : string) (m : value) (e : object) :
  let entry := own_set "meta" m (own_set "id" (VString k) e) in
  own_set "meta" m (own_set "id" (VString k) entry) = entry.
Proof.
  simpl.
  rewrite (own_set_present_same "id" (VString k)
             (own_set "meta" m (own_set "id" (VString k) e))).
  - apply own_set_own_set_same.
  - rewrite own_get_own_set_other by discriminate.
    apply own_get_own_set_same.
Qed.

Lemma get_own_set_same (d : Dictionary) (k : string) (e : object) :
  get (own_set k e d) k = Own e.
Proof. unfold get. now rewrite own_get_own_set_same. Qed.

(** ** The reducer as a whole *)

(** X1: dispatching the same action twice in a row leaves the state that
    dispatching it once leaves. *)
Theorem reducer_idempotent (state : ResourceManager) (a : Action) :
  resourceManagerReducer (resourceManagerReducer state a) a =
  resourceManagerReducer state a.
Proof.
  destruct a; simpl; try reflexivity;
    try (rewrite get_own_set_same; simpl;
         rewrite ?id_meta_write_absorbs, ?meta_write_absorbs,
           own_set_own_set_same; reflexivity);
    try (rewrite own_set_own_set_same; reflexivity).
  rewrite own_rest_own_rest. f_equal.
  destruct (rm_selected state) as [s |]; auto.
  destruct (String.eqb s payload) eqn:E; auto. now rewrite E.
Qed.

(** X2: every action maps a dictionary without repeated keys to a
    dictionary without repeated keys. *)
Theorem reducer_keeps_keys_distinct (state : ResourceManager) (a : Action) :
  NoDup (own_keys (rm_list state)) ->
  NoDup (own_keys (rm_list (resourceManagerReducer state a))).
Proof.
  intros Hnd.
  destruct a; simpl; auto using own_set_keys_NoDup, own_rest_keys_NoDup.
  apply fold_list_step_keys_NoDup. constructor.
Qed.

Lemma reducer_keeps_keys_distinct_witness :
  NoDup
    (own_keys
       (rm_list
          (resourceManagerReducer state_ab (GET_RESOURCE_RESOLVED resource_b3)))).
Proof.
  apply (reducer_keeps_keys_distinct state_ab
           (GET_RESOURCE_RESOLVED resource_b3)).
  simpl. repeat constructor; simpl; intuition discriminate.
Defined.

(** X3: an action that does not rebuild the dictionary leaves the entry
    under every id other than its own as it was. *)
Theorem reducer_frame (state : ResourceManager) (a : Action) (k : string) :
  rebuilds_entries a = false ->
  action_id a <> Some k ->
  own_get k (rm_list (resourceManagerReducer state a)) =
  own_get k (rm_list state).
Proof.
  intros Hreb Hid.
  destruct a; simpl in *; try reflexivity; try discriminate;
    try (apply own_get_own_set_other; congruence).
  apply own_get_own_rest_other. congruence.
Qed.

Lemma reducer_frame_witness :
  own_get "a"
    (rm_list
       (resourceManagerReducer state_ab
          (UPDATE_RESOURCE_REJECTED {| id := "b"; message := "boom" |}))) =
  own_get "a" (rm_list state_ab).
Proof.
  apply (reducer_frame state_ab
           (UPDATE_RESOURCE_REJECTED {| id := "b"; message := "boom" |}) "a").
  - reflexivity.
  - simpl. discriminate.
Defined.

(** X4: an action other than LIST_RESOURCE_RESOLVED and
    REMOVE_RESOURCE_RESOLVED never removes a key: the keys stay as they are,
    or exactly the action's id, absent before, is added to them. *)
Theorem reducer_never_removes_a_key (state : ResourceManager) (a : Action) :
  rebuilds_entries a = false ->
  deletes_entry a = false ->
  let keys := own_keys (rm_list state) in
  let keys' := own_keys (rm_list (resourceManagerReducer state a)) in
  keys' = keys \/
  exists k,
    action_id a = Some k /\
    ~ In k keys /\
    Permutation keys' (k :: keys).
Proof.
  intros Hreb Hdel.
  assert (Hset : forall k (e : object),
            own_keys (own_set k e (rm_list state)) = own_keys (rm_list state) \/
            ~ In k (own_keys (rm_list state)) /\
            Permutation (own_keys (own_set k e (rm_list state)))
              (k :: own_keys (rm_list state))).
  { intros k e. destruct (own_get k (rm_list state)) as [e0 |] eqn:G.
    - left. now apply (own_keys_own_set_present k e e0).
    - right. split; [now apply own_get_none_keys |].
      rewrite own_keys_own_set_absent by exact G.
      symmetry. apply Permutation_cons_append. }
  destruct a; simpl in *; try discriminate; auto;
    match goal with
    | |- own_keys (own_set ?k ?e _) = _ \/ _ =>
        destruct (Hset k e) as [H | [H1 H2]];
        [ now left | right; exists k; auto ]
    end.
Qed.

Lemma reducer_never_removes_a_key_witness :
  let keys := own_keys (rm_list state_ab) in
  let keys' :=
    own_keys
      (rm_list (resourceManagerReducer state_ab (GET_RESOURCE_STARTED "2"))) in
  keys' = keys \/
  exists k,
    action_id (GET_RESOURCE_STARTED "2") = Some k /\
    ~ In k keys /\
    Permutation keys' (k :: keys).
Proof.
  apply (reducer_never_removes_a_key state_ab (GET_RESOURCE_STARTED "2"));
    reflexivity.
Defined.

(** X5: if every entry that carries an [id] field carries its own key
    there, the same holds after any action. *)
Theorem reducer_keeps_ids_matching (state : ResourceManager) (a : Action) :
  ids_match_keys (rm_list state) ->
  ids_match_keys (rm_list (resourceManagerReducer state a)).
Proof.
  intros Hinv.
  assert (Hspread : forall k v,
            own_get "id" (spread (get (rm_list state) k)) = Some v ->
            v = VString k).
  { intros k v. unfold get.
    destruct (own_get k (rm_list state)) as [e |] eqn:G.
    - simpl. now apply Hinv.
    - destruct (inherited k); discriminate. }
  assert (Hres : forall (resource : Resource) k' entry v,
            own_get k'
              (own_set (resource_id resource) (with_null_meta resource)
                 (rm_list state)) = Some entry ->
            own_get "id" entry = Some v -> v = VString k').
  { intros resource k' entry v. rewrite own_get_own_set.
    destruct (String.eqb (resource_id resource) k') eqn:E.
    - apply String.eqb_eq in E. subst k'. intros [= <-].
      unfold with_null_meta.
      rewrite own_get_own_set_other by discriminate.
      rewrite (resource_id_ok resource). now intros [= <-].
    - apply Hinv. }
  assert (Hmeta : forall k m k' entry v,
            own_get k'
              (own_set k (own_set "meta" m (spread (get (rm_list state) k)))
                 (rm_list state)) = Some entry ->
            own_get "id" entry = Some v -> v = VString k').
  { intros k m k' entry v. rewrite own_get_own_set.
    destruct (String.eqb k k') eqn:E.
    - apply String.eqb_eq in E. subst k'. intros [= <-].
      rewrite own_get_own_set_other by discriminate. apply Hspread.
    - apply Hinv. }
  destruct a; simpl; auto;
    try (exact (Hres payload)); try (exact (Hmeta _ _)).
  - intros k' entry v. rewrite own_get_own_set.
    destruct (String.eqb payload k') eqn:E; [| apply Hinv].
    apply String.eqb_eq in E. subst k'. intros [= <-].
    rewrite own_get_own_set_other by discriminate.
    rewrite own_get_own_set_same. now intros [= <-].
  - intros k' entry v. rewrite fold_list_step_get. simpl.
    destruct (inherited k'); [discriminate |].
    destruct (first_with_id k' payload) as [resource |] eqn:F;
      [| discriminate].
    simpl. intros [= <-].
    apply find_some in F. destruct F as [_ F].
    apply String.eqb_eq in F. subst k'.
    unfold with_null_meta. rewrite own_get_own_set_other by discriminate.
    rewrite (resource_id_ok resource). now intros [= <-].
  - intros k' entry v. rewrite own_get_own_rest.
    destruct (String.eqb payload k'); [discriminate | apply Hinv].
Qed.

Lemma reducer_keeps_ids_matching_witness :
  ids_match_keys
    (rm_list
       (resourceManagerReducer state_ab
          (UPDATE_RESOURCE_REJECTED {| id := "b"; message := "boom" |}))).
Proof.
  apply (reducer_keeps_ids_matching state_ab
           (UPDATE_RESOURCE_REJECTED {| id := "b"; message := "boom" |})).
  intros k entry v. cbn -[String.eqb].
  destruct (String.eqb "a" k) eqn:Ea.
  - apply String.eqb_eq in Ea. subst k.
    intros [= <-]. cbn. now intros [= <-].
  - destruct (String.eqb "b" k) eqn:Eb; [| discriminate].
    apply String.eqb_eq in Eb. subst k.
    intros [= <-]. cbn. now intros [= <-].
Defined.

(** The entries the invariant speaks about after that action: both carry
    their key under [id]. *)
Example reducer_keeps_ids_matching_entries :
  let entries :=
    rm_list
      (resourceManagerReducer state_ab
         (UPDATE_RESOURCE_REJECTED {| id := "b"; message := "boom" |})) in
  own_get "a" entries =
    Some [("id", VString "a"); ("v", VNumber 1); ("meta", meta None None)] /\
  own_get "b" entries =
    Some [("id", VString "b"); ("meta", meta None (Some "boom"))].
Proof. split; reflexivity. Qed.

(** X6: every STARTED action sets the global action to its own verb and
    clears the global error; it leaves the selection alone. *)
Theorem started_sets_global_flags
  (state : ResourceManager) (a : Action) (v : AsyncAction) :
  kind a = Some (v, STARTED) ->
  let state' := resourceManagerReducer state a in
  rm_action state' = Some v /\
  rm_error state' = None /\
  rm_selected state' = rm_selected state.
Proof.
  destruct a; simpl; intros [= <-]; auto.
Qed.

Lemma started_sets_global_flags_witness :
  let state' := resourceManagerReducer state_ab (REMOVE_RESOURCE_STARTED "a") in
  rm_action state' = Some a_remove /\
  rm_error state' = None /\
  rm_selected state' = rm_selected state_ab.
Proof.
  apply (started_sets_global_flags state_ab (REMOVE_RESOURCE_STARTED "a")
           a_remove).
  reflexivity.
Defined.



(** ** The enumeration order of a dictionary *)

Section Enumeration.
Context {A : Type}.
Implicit Types (o : props A) (l : list (N * A)).

Lemma insert_index_Permutation (i : N) (v : A) l :
  Permutation (map snd (insert_index i v l)) (v :: map snd l).
Proof.
  induction l as [| [j w] rest IH]; simpl; auto.
  destruct (N.ltb i j); simpl; auto.
  rewrite IH. apply perm_swap.
Qed.

Lemma Object_values_Permutation o :
  Permutation (Object_values o) (map snd o).
Proof.
  unfold Object_values, named.
  induction o as [| [k v] rest IH]; simpl; auto.
  destruct (array_index k); simpl.
  - rewrite insert_index_Permutation. simpl. now constructor.
  - rewrite <- Permutation_middle. now constructor.
Qed.

Lemma named_without_indices o :
  (forall k, In k (own_keys o) -> array_index k = None) ->
  indexed o = [] /\ named o = map snd o.
Proof.
  unfold named, own_keys.
  induction o as [| [k v] rest IH]; simpl; auto.
  intros H. rewrite (H k) by auto. simpl.
  destruct IH as [-> ->]; auto.
Qed.

Lemma named_all_indices o :
  (forall k, In k (own_keys o) -> array_index k <> None) ->
  named o = [].
Proof.
  unfold named, own_keys.
  induction o as [| [k v] rest IH]; simpl; auto.
  intros H. destruct (array_index k) eqn:E.
  - apply IH. auto.
  - exfalso. apply (H k); auto.
Qed.

Lemma insert_index_Sorted (i : N) (v : A) l :
  Sorted N.le (map fst l) -> Sorted N.le (map fst (insert_index i v l)).
Proof.
  induction l as [| [j w] rest IH]; simpl; intros Hs.
  - repeat constructor.
  - destruct (N.ltb i j) eqn:E; simpl.
    + apply N.ltb_lt in E. constructor; auto.
      constructor. lia.
    + apply N.ltb_ge in E.
      inversion Hs as [| ? ? Hrest Hhd]; subst.
      constructor; auto.
      destruct rest as [| [j' w'] rest']; simpl in *.
      * constructor. exact E.
      * destruct (N.ltb i j'); simpl; constructor; auto.
        inversion Hhd; auto.
Qed.

Lemma indexed_Sorted o : Sorted N.le (map fst (indexed o)).
Proof.
  induction o as [| [k v] rest IH]; simpl; [constructor |].
  destruct (array_index k); auto using insert_index_Sorted.
Qed.

Lemma insert_index_In (i j : N) (v w : A) l :
  In (j, w) (insert_index i v l) <-> (j, w) = (i, v) \/ In (j, w) l.
Proof.
  induction l as [| [j' w'] rest IH]; simpl.
  - intuition congruence.
  - destruct (N.ltb i j'); simpl; [intuition congruence |].
    rewrite IH. intuition congruence.
Qed.

Lemma indexed_In (i : N) (v : A) o :
  In (i, v) (indexed o) <->
  exists k, In (k, v) o /\ array_index k = Some i.
Proof.
  induction o as [| [k w] rest IH]; simpl.
  - split; [tauto | intros [k [[] _]]].
  - destruct (array_index k) as [j |] eqn:E.
    + rewrite insert_index_In, IH. split.
      * intros [[= -> ->] | [k' [Hin Hk']]].
        -- exists k. auto.
        -- exists k'. auto.
      * intros [k' [[[= <- <-] | Hin] Hk']].
        -- left. congruence.
        -- right. exists k'. auto.
    + rewrite IH. split.
      * intros [k' [Hin Hk']]. exists k'. auto.
      * intros [k' [[[= <- <-] | Hin] Hk']]; [congruence |].
        exists k'. auto.
Qed.

Lemma indexed_app_named (k : string) (v : A) o :
  array_index k = None -> indexed (o ++ [(k, v)])%list = indexed o.
Proof.
  intros Hk.
  induction o as [| [k0 v0] rest IH]; simpl.
  - now rewrite Hk.
  - now rewrite IH.
Qed.

Lemma named_app_named (k : string) (v : A) o :
  array_index k = None ->
  named (o ++ [(k, v)])%list = (named o ++ [v])%list.
Proof.
  intros Hk. unfold named.
  rewrite filter_app, map_app. simpl. now rewrite Hk.
Qed.

(** A new key that is not an array index is enumerated last. *)
Lemma Object_values_own_set_new (k : string) (v : A) o :
  own_get k o = None ->
  array_index k = None ->
  Object_values (own_set k v o) = (Object_values o ++ [v])%list.
Proof.
  intros Habsent Hk.
  rewrite (own_set_absent k v o Habsent).
  unfold Object_values.
  rewrite indexed_app_named, named_app_named by exact Hk.
  now rewrite app_assoc.
Qed.

End Enumeration.

(** Without array indices the keys are enumerated in creation order. *)
Lemma Object_keys_without_indices {A : Type} (o : props A) :
  (forall k, In k (own_keys o) -> array_index k = None) ->
  Object_keys o = own_keys o.
Proof.
  intros H. unfold Object_keys, Object_values.
  assert (Hkeys : own_keys (map (fun kv : string * A => (fst kv, fst kv)) o)
                  = own_keys o).
  { unfold own_keys. rewrite map_map. reflexivity. }
  destruct (named_without_indices
              (map (fun kv : string * A => (fst kv, fst kv)) o)) as [-> ->].
  - now rewrite Hkeys.
  - simpl. unfold own_keys. rewrite !map_map. reflexivity.
Qed.

Lemma keep_first_In (l : list string) :
  forall seen k, In k (keep_first seen l) -> In k l.
Proof.
  induction l as [| k0 rest IH]; intros seen k; simpl; auto.
  destruct (existsb (String.eqb k0) seen); simpl.
  - intros H. right. now apply (IH seen).
  - intros [-> | H]; [now left | right; now apply (IH (seen ++ [k0])%list)].
Qed.

(** ** More on LIST_RESOURCE_RESOLVED *)

Lemma fold_list_step_keys (payload : list Resource) :
  forall acc : Dictionary,
    own_keys (fold_left list_step payload acc) =
      (own_keys acc ++ keep_first (own_keys acc) (listable_ids payload))%list.
Proof.
  unfold listable_ids.
  induction payload as [| resource rest IH]; intros acc; simpl.
  - now rewrite app_nil_r.
  - rewrite IH. unfold list_step, get.
    destruct (own_get (resource_id resource) acc) as [e |] eqn:G; simpl.
    + destruct (inherited (resource_id resource)); simpl; auto.
      now rewrite own_get_some_existsb, G.
    + destruct (inherited (resource_id resource)); simpl; auto.
      rewrite own_get_some_existsb, G.
      rewrite own_keys_own_set_absent by exact G.
      now rewrite <- app_assoc.
Qed.

(** X8: when no id of the payload is an array index, the keys of the
    entries after LIST_RESOURCE_RESOLVED are enumerated as the ids of the
    payload that are not inherited names, each once, in the order of their
    first occurrence in the payload. *)
Theorem list_resolved_keys_in_payload_order
  (state : ResourceManager) (payload : list Resource) :
  (forall resource,
      In resource payload -> array_index (resource_id resource) = None) ->
  Object_keys
    (rm_list (resourceManagerReducer state (LIST_RESOURCE_RESOLVED payload))) =
    keep_first [] (listable_ids payload).
Proof.
  intros Hnamed. simpl.
  rewrite Object_keys_without_indices; rewrite fold_list_step_keys; simpl;
    auto.
  intros k Hk. apply keep_first_In in Hk.
  unfold listable_ids in Hk. apply filter_In in Hk. destruct Hk as [Hk _].
  apply in_map_iff in Hk. destruct Hk as [resource [<- Hin]].
  now apply Hnamed.
Qed.

Lemma list_resolved_keys_in_payload_order_witness :
  Object_keys
    (rm_list
       (resourceManagerReducer state_ab
          (LIST_RESOURCE_RESOLVED
             [resource_b3; resource_constructor 1; resource_a2;
              resource_b3; resource_a1]))) =
    ["b"; "a"].
Proof.
  apply (list_resolved_keys_in_payload_order state_ab
           [resource_b3; resource_constructor 1; resource_a2;
            resource_b3; resource_a1]).
  intros resource [<- | [<- | [<- | [<- | [<- | []]]]]]; reflexivity.
Defined.

(** X9: every entry left by LIST_RESOURCE_RESOLVED is a resource of the
    payload with [meta = {action: null, error: null}]; its [id] field is its
    key. *)
Theorem list_resolved_entries_are_settled
  (state : ResourceManager) (payload : list Resource)
  (k : string) (entry : object) :
  own_get k
    (rm_list (resourceManagerReducer state (LIST_RESOURCE_RESOLVED payload))) =
    Some entry ->
  (exists resource,
      In resource payload /\ resource_id resource = k /\
      entry = with_null_meta resource) /\
  own_get "meta" entry = Some (meta None None) /\
  own_get "id" entry = Some (VString k).
Proof.
  simpl. rewrite fold_list_step_get. simpl.
  destruct (inherited k); [discriminate |].
  destruct (first_with_id k payload) as [resource |] eqn:F; [| discriminate].
  simpl. intros [= <-].
  apply find_some in F. destruct F as [Hin Heq].
  apply String.eqb_eq in Heq. subst k.
  repeat split.
  - exists resource. auto.
  - apply own_get_own_set_same.
  - unfold with_null_meta. rewrite own_get_own_set_other by discriminate.
    apply resource_id_ok.
Qed.

Lemma list_resolved_entries_are_settled_witness :
  (exists resource,
      In resource [resource_a2; resource_b3] /\ resource_id resource = "b" /\
      with_null_meta resource_b3 = with_null_meta resource) /\
  own_get "meta" (with_null_meta resource_b3) = Some (meta None None) /\
  own_get "id" (with_null_meta resource_b3) = Some (VString "b").
Proof.
  apply (list_resolved_entries_are_settled state_ab
           [resource_a2; resource_b3] "b" (with_null_meta resource_b3)).
  reflexivity.
Defined.

(** ** Composition of actions *)

(** X10: resolving a resource whose id had no entry and then removing that
    id gives back the entries as they were. *)
Theorem resolve_then_remove_restores_entries
  (state : ResourceManager) (resource : Resource) :
  own_get (resource_id resource) (rm_list state) = None ->
  rm_list
    (dispatch_all state
       [ CREATE_RESOURCE_RESOLVED resource;
         REMOVE_RESOURCE_RESOLVED (resource_id resource) ]) =
    rm_list state.
Proof.
  intros Habsent. simpl.
  rewrite own_rest_own_set. now apply own_rest_absent.
Qed.

Lemma resolve_then_remove_restores_entries_witness :
  rm_list
    (dispatch_all state_a
       [ CREATE_RESOURCE_RESOLVED resource_b3;
         REMOVE_RESOURCE_RESOLVED (resource_id resource_b3) ]) =
    rm_list state_a.
Proof.
  apply (resolve_then_remove_restores_entries state_a resource_b3).
  reflexivity.
Defined.

(** X11: [select(id)] followed by the removal of that id, started and
    resolved, ends with nothing selected, no entry under the id, and [null]
    as the projection's [selected]. *)
Theorem select_then_remove_clears_selection
  (state : ResourceManager) (k : string) :
  let state' :=
    dispatch_all state
      (handleSelect k ++
       [ REMOVE_RESOURCE_STARTED k; REMOVE_RESOURCE_RESOLVED k ])%list in
  rm_selected state' = None /\
  own_get k (rm_list state') = None /\
  st_selected (manager state') = Null /\
  rm_action state' = None /\
  rm_error state' = None.
Proof.
  simpl. rewrite String.eqb_refl. repeat split.
  apply own_get_own_rest_same.
Qed.

(** ** Handlers run to settlement *)

(** X12: a [get] or an [update] whose promise fulfils with a resource
    carrying the requested id ends, from any state, with no pending action,
    no error, and the resource with null meta under that id; the returned
    promise fulfils with the same resource. *)
Theorem get_and_update_settle_the_entry
  (state : ResourceManager) (resource : Resource) :
  let k := resource_id resource in
  let settled_by (call : Invocation Resource Resource) :=
    let state' := settle state call (Fulfilled resource) in
    snd (returned call (Fulfilled resource)) = Fulfilled resource /\
    rm_action state' = None /\
    rm_error state' = None /\
    own_get k (rm_list state') = Some (with_null_meta resource) in
  settled_by (handleGet k) /\ settled_by (handleUpdate k).
Proof.
  simpl. unfold with_null_meta.
  repeat split; apply own_get_own_set_same.
Qed.

(** X13: a [get] whose promise fulfils with a resource carrying another id
    leaves the requested id loading: its entry keeps
    [meta = {action: 'get', error: null}] although no action is pending
    globally. *)
Theorem get_with_other_id_stays_loading
  (state : ResourceManager) (k : string) (resource : Resource) :
  resource_id resource <> k ->
  let state' := settle state (handleGet k) (Fulfilled resource) in
  rm_action state' = None /\
  exists entry,
    own_get k (rm_list state') = Some entry /\
    own_get "meta" entry = Some (meta (Some a_get) None) /\
    own_get "id" entry = Some (VString k).
Proof.
  intros Hne. simpl. split; [reflexivity |].
  eexists. split.
  - rewrite own_get_own_set_other by congruence.
    apply own_get_own_set_same.
  - split.
    + apply own_get_own_set_same.
    + rewrite own_get_own_set_other by discriminate.
      apply own_get_own_set_same.
Qed.

Lemma get_with_other_id_stays_loading_witness :
  let state' :=
    settle EMPTY_RESOURCE_MANAGER (handleGet "a") (Fulfilled resource_b3) in
  rm_action state' = None /\
  exists entry,
    own_get "a" (rm_list state') = Some entry /\
    own_get "meta" entry = Some (meta (Some a_get) None) /\
    own_get "id" entry = Some (VString "a").
Proof.
  apply (get_with_other_id_stays_loading EMPTY_RESOURCE_MANAGER "a"
           resource_b3).
  simpl. discriminate.
Defined.

(** X14: a [remove] whose promise fulfils ends, from any state, with no
    entry under the id and no pending action; the returned promise fulfils
    with the id, whatever the supplied promise fulfilled with; the selection
    is cleared exactly when it was that id. *)
Theorem remove_settles_by_deleting
  (state : ResourceManager) (k : string) (resource : Resource) :
  let state' := settle state (handleRemove k) (Fulfilled resource) in
  snd (returned (handleRemove k) (Fulfilled resource)) = Fulfilled k /\
  own_get k (rm_list state') = None /\
  rm_action state' = None /\
  rm_error state' = None /\
  rm_selected state' =
    (if match rm_selected state with
        | Some s => String.eqb s k
        | None => false
        end
     then None else rm_selected state) /\
  (forall k', k' <> k ->
     own_get k' (rm_list state') = own_get k' (rm_list state)).
Proof.
  simpl. repeat split.
  - apply own_get_own_rest_same.
  - destruct (rm_selected state) as [s |]; reflexivity.
  - intros k' Hne.
    rewrite own_get_own_rest_other by exact Hne.
    now apply own_get_own_set_other.
Qed.

(** X15: a [create] whose promise fulfils adds the resource under its id
    and leaves every other entry as it was; when the id is new and is not
    an array index, the projection lists the new entry last, after the
    entries it listed before. *)
Theorem create_settles_by_adding
  (state : ResourceManager) (resource : Resource) :
  let k := resource_id resource in
  let state' := settle state handleCreate (Fulfilled resource) in
  own_get k (rm_list state') = Some (with_null_meta resource) /\
  (forall k', k' <> k ->
     own_get k' (rm_list state') = own_get k' (rm_list state)) /\
  (own_get k (rm_list state) = None ->
   array_index k = None ->
   st_list (manager state') =
     (st_list (manager state) ++ [with_null_meta resource])%list) /\
  rm_action state' = None /\
  rm_error state' = None.
Proof.
  simpl. unfold with_null_meta. repeat split.
  - apply own_get_own_set_same.
  - intros k' Hne. now apply own_get_own_set_other.
  - intros Habsent Hk. now apply Object_values_own_set_new.
Qed.

(** X15 on [entries = {a: {v: 1}}] and a created resource with the new id
    [b]: the projection lists it after the entry under [a]. *)
Lemma create_settles_by_adding_witness :
  let state' := settle state_a handleCreate (Fulfilled resource_b3) in
  own_get "b" (rm_list state') = Some (with_null_meta resource_b3) /\
  own_get "a" (rm_list state') = own_get "a" (rm_list state_a) /\
  st_list (manager state') =
    (st_list (manager state_a) ++ [with_null_meta resource_b3])%list.
Proof.
  destruct (create_settles_by_adding state_a resource_b3)
    as [Hnew [Hothers [Hlast _]]].
  split; [exact Hnew |]. split.
  - apply Hothers. discriminate.
  - apply Hlast; reflexivity.
Defined.

(** X16: an [update] whose promise rejects leaves the data of an existing
    entry intact: every field except [meta] reads as before the call, and
    [meta] carries the message, which is also the global error and the
    reason the returned promise rejects with. *)
Theorem failed_update_keeps_the_data
  (state : ResourceManager) (k : string) (entry : object) (error : Error) :
  own_get k (rm_list state) = Some entry ->
  let state' :=
    settle state (handleUpdate k) (Rejected (ReasonError error)) in
  snd (returned (handleUpdate k) (Rejected (ReasonError error))) =
    Rejected (BareMessage (Error_message error)) /\
  rm_error state' = Some (Error_message error) /\
  rm_action state' = None /\
  exists entry',
    own_get k (rm_list state') = Some entry' /\
    own_get "meta" entry' = Some (meta None (Some (Error_message error))) /\
    (forall f, f <> "meta" -> own_get f entry' = own_get f entry) /\
    own_keys (rm_list state') = own_keys (rm_list state).
Proof.
  intros Hentry. simpl. repeat split.
  eexists. split; [apply own_get_own_set_same |].
  rewrite get_own_set_same. simpl. unfold get. rewrite Hentry. simpl.
  repeat split.
  - apply own_get_own_set_same.
  - intros f Hf. now rewrite !own_get_own_set_other by congruence.
  - rewrite own_set_own_set_same.
    now apply (own_keys_own_set_present k _ entry).
Qed.

Lemma failed_update_keeps_the_data_witness :
  let state' :=
    settle state_ab (handleUpdate "a")
      (Rejected (ReasonError (mkError "conflict"))) in
  snd (returned (handleUpdate "a")
         (Rejected (ReasonError (mkError "conflict")))) =
    Rejected (BareMessage "conflict") /\
  rm_error state' = Some "conflict" /\
  rm_action state' = None /\
  exists entry',
    own_get "a" (rm_list state') = Some entry' /\
    own_get "meta" entry' = Some (meta None (Some "conflict")) /\
    (forall f, f <> "meta" ->
       own_get f entry' =
       own_get f [ ("id", VString "a"); ("v", VNumber 1);
                   ("meta", meta None None) ]) /\
    own_keys (rm_list state') = own_keys (rm_list state_ab).
Proof.
  apply (failed_update_keeps_the_data state_ab "a"
           [ ("id", VString "a"); ("v", VNumber 1); ("meta", meta None None) ]
           (mkError "conflict")).
  reflexivity.
Defined.

(** ** The read projection *)

(** X17: the projection's [selected] is an entry exactly when the selected
    id is a non-empty string with an entry of its own, and it is [null]
    exactly when nothing is selected or the selected id is the empty
    string, whether or not that id has an entry. *)
Theorem manager_selected_cases (state : ResourceManager) :
  (forall entry,
      st_selected (manager state) = Read (Own entry) <->
      exists s,
        rm_selected state = Some s /\ s <> "" /\
        own_get s (rm_list state) = Some entry) /\
  (st_selected (manager state) = Null <->
   rm_selected state = None \/ rm_selected state = Some "").
Proof.
  unfold manager, get. simpl. split.
  - intros entry. split.
    + destruct (rm_selected state) as [s |]; [| discriminate].
      destruct s as [| c s]; simpl; [discriminate |].
      destruct (own_get (String c s) (rm_list state)) as [e |] eqn:G.
      * intros [= ->]. exists (String c s). repeat split; auto. discriminate.
      * destruct (inherited (String c s)); discriminate.
    + intros [s [-> [Hs ->]]].
      destruct s; simpl; [congruence | reflexivity].
  - split.
    + destruct (rm_selected state) as [s |]; auto.
      destruct s; simpl; auto. discriminate.
    + intros [-> | ->]; reflexivity.
Qed.

(** X18: the projection's [list] holds the entries of the state, each as
    often as the state holds it: nothing is lost and nothing is added. *)
Theorem manager_list_is_a_permutation (state : ResourceManager) :
  Permutation (st_list (manager state)) (map snd (rm_list state)) /\
  length (st_list (manager state)) = length (rm_list state).
Proof.
  simpl. split.
  - apply Object_values_Permutation.
  - rewrite (Permutation_length (Object_values_Permutation (rm_list state))).
    apply length_map.
Qed.

(** X19: when no id is an array index, the projection lists the entries in
    the order their keys were created. *)
Theorem manager_list_in_creation_order (state : ResourceManager) :
  (forall k, In k (own_keys (rm_list state)) -> array_index k = None) ->
  st_list (manager state) = map snd (rm_list state).
Proof.
  intros H. simpl. unfold Object_values.
  destruct (named_without_indices (rm_list state) H) as [-> ->].
  reflexivity.
Qed.

Lemma manager_list_in_creation_order_witness :
  st_list (manager state_ab) = map snd (rm_list state_ab).
Proof.
  apply (manager_list_in_creation_order state_ab).
  simpl. intros k [<- | [<- | []]]; reflexivity.
Defined.

(** X20: when every id is an array index, such as ["2"] or ["10"], the
    projection lists the entries by ascending numeric id, whatever the
    order in which they were created. *)
Theorem manager_list_in_numeric_order (state : ResourceManager) :
  (forall k, In k (own_keys (rm_list state)) -> array_index k <> None) ->
  exists numbered : list (N * object),
    st_list (manager state) = map snd numbered /\
    Sorted N.le (map fst numbered) /\
    (forall i entry,
        In (i, entry) numbered <->
        exists k, In (k, entry) (rm_list state) /\ array_index k = Some i).
Proof.
  intros H. exists (indexed (rm_list state)). simpl. unfold Object_values.
  rewrite (named_all_indices (rm_list state) H), app_nil_r.
  split; [reflexivity |]. split.
  - apply indexed_Sorted.
  - intros i entry. apply indexed_In.
Qed.

Lemma manager_list_in_numeric_order_witness :
  exists numbered : list (N * object),
    st_list
      (manager
         (dispatch_all EMPTY_RESOURCE_MANAGER
            [GET_RESOURCE_STARTED "10"; GET_RESOURCE_STARTED "2"])) =
      map snd numbered /\
    Sorted N.le (map fst numbered) /\
    (forall i entry,
        In (i, entry) numbered <->
        exists k,
          In (k, entry)
            (rm_list
               (dispatch_all EMPTY_RESOURCE_MANAGER
                  [GET_RESOURCE_STARTED "10"; GET_RESOURCE_STARTED "2"])) /\
          array_index k = Some i).
Proof.
  apply (manager_list_in_numeric_order
           (dispatch_all EMPTY_RESOURCE_MANAGER
              [GET_RESOURCE_STARTED "10"; GET_RESOURCE_STARTED "2"])).
  simpl. intros k [<- | [<- | []]]; discriminate.
Defined.

(** ** Calls that overlap, and the list call *)

(** X21: a [list] whose promise fulfils replaces the entries by those
    built from the payload alone: under every id that is not an inherited
    name, the first resource of the payload with that id, with null meta,
    and nothing under any other id.  It passes the payload on and keeps the
    selection as it was, whether or not the selected id is still listed. *)
Theorem list_settles_by_replacing
  (state : ResourceManager) (payload : list Resource) :
  let state' := settle state handleList (Fulfilled payload) in
  snd (returned handleList (Fulfilled payload)) = Fulfilled payload /\
  (forall k,
      own_get k (rm_list state') =
        if inherited k then None
        else option_map with_null_meta (first_with_id k payload)) /\
  rm_list state' =
    rm_list
      (resourceManagerReducer EMPTY_RESOURCE_MANAGER
         (LIST_RESOURCE_RESOLVED payload)) /\
  rm_selected state' = rm_selected state /\
  rm_action state' = None /\
  rm_error state' = None.
Proof.
  simpl. repeat split. intros k. now rewrite fold_list_step_get.
Qed.

(** X22: the global action is overwritten by whichever call writes last:
    when an [update] of one id is started and a [get] of another id then
    starts and resolves, no action is pending globally although the first
    entry still carries [meta = {action: 'update', error: null}]. *)
Theorem overlapping_calls_share_one_flag
  (state : ResourceManager) (k : string) (resource : Resource) :
  resource_id resource <> k ->
  let state' :=
    dispatch_all state
      (synchronous (handleUpdate k) ++
       trace (handleGet (resource_id resource)) (Fulfilled resource))%list in
  rm_action state' = None /\
  exists entry,
    own_get k (rm_list state') = Some entry /\
    own_get "meta" entry = Some (meta (Some a_update) None).
Proof.
  intros Hne. simpl. split; [reflexivity |].
  eexists. split.
  - rewrite own_get_own_set_other by congruence.
    rewrite own_get_own_set_other by congruence.
    apply own_get_own_set_same.
  - apply own_get_own_set_same.
Qed.

Lemma overlapping_calls_share_one_flag_witness :
  let state' :=
    dispatch_all state_ab
      (synchronous (handleUpdate "a") ++
       trace (handleGet (resource_id resource_b3)) (Fulfilled resource_b3))%list
  in
  rm_action state' = None /\
  exists entry,
    own_get "a" (rm_list state') = Some entry /\
    own_get "meta" entry = Some (meta (Some a_update) None).
Proof.
  apply (overlapping_calls_share_one_flag state_ab "a" resource_b3).
  simpl. discriminate.
Defined.
